(** * Mandelbrot renderer: escape-time loop, pixel mapping and colouring

    A shallow embedding of [cpp_tutorial_741190.cpp].

    - [double] is IEEE 754 binary64 with round-to-nearest-even, every
      operation rounded on its own: Rocq's primitive floats ([PrimFloat]).
    - [int] is a 32-bit signed integer, carried by [Z].  Signed overflow and
      integer division by zero are undefined behaviour in C++, so integer
      operations return an [outcome] and report [Undefined] there.
    - [unsigned char] is a [Z] reduced modulo 256 by the conversion.
    - [std::vector<RGB>] is a list updated by index.
    - [render] is [generateMandelbrot] up to the end of the pixel loops and
      returns the pixel buffer; the rest of the function writes the buffer
      to a file, modelled on a [world] of files and console streams. *)

From Stdlib Require Import ZArith Lia Bool List Ascii.
From Stdlib Require Import Floats.
From stdpp Require Import base list strings pretty gmap.

Local Open Scope Z_scope.

(** ** Outcomes of a computation *)

Inductive outcome (A : Type) : Type :=
| Ok (a : A)          (* normal completion *)
| Undefined           (* signed overflow, division by zero, bad index *)
| Throws.             (* std::length_error from the vector constructor *)

Arguments Ok {A} a.
Arguments Undefined {A}.
Arguments Throws {A}.

Definition bind {A B : Type} (m : outcome A) (k : A -> outcome B) : outcome B :=
  match m with
  | Ok a => k a
  | Undefined => Undefined
  | Throws => Throws
  end.

Notation "'do' x <- m ; k" := (bind m (fun x => k))
  (at level 10, x name, m at level 100, k at level 200).

(** ** The type [int] *)

Module Int.

Definition INT_MIN : Z := - 2 ^ 31.
Definition INT_MAX : Z := 2 ^ 31 - 1.

Definition in_range (n : Z) : bool := (INT_MIN <=? n) && (n <=? INT_MAX).

Definition ret (n : Z) : outcome Z := if in_range n then Ok n else Undefined.

Definition add (a b : Z) : outcome Z := ret (a + b).
Definition sub (a b : Z) : outcome Z := ret (a - b).
Definition mul (a b : Z) : outcome Z := ret (a * b).

(* [/] and [%] truncate towards zero. *)
Definition div (a b : Z) : outcome Z :=
  if b =? 0 then Undefined else ret (Z.quot a b).
Definition rem (a b : Z) : outcome Z :=
  if b =? 0 then Undefined else
    if in_range (Z.quot a b) then Ok (Z.rem a b) else Undefined.

End Int.

(** ** RGB colours *)

Record RGB : Type := mkRGB { r : Z; g : Z; b : Z }.

Definition black : RGB := mkRGB 0 0 0.

(* The conversion [(unsigned char) n]. *)
Definition to_uchar (n : Z) : Z := n mod 256.

Definition valid_channel (v : Z) : Prop := 0 <= v <= 255.

Definition valid_RGB (p : RGB) : Prop :=
  valid_channel (r p) /\ valid_channel (g p) /\ valid_channel (b p).

(** ** [getColor] *)

Definition getColor (iterations maxIterations : Z) : outcome RGB :=
  if iterations =? maxIterations then Ok black
  else
    do p <- Int.mul iterations 255 ;
    do colorValue <- Int.div p maxIterations ;
    do rv <- Int.rem colorValue 255 ;
    do c2 <- Int.mul colorValue 2 ;
    do gv <- Int.rem c2 255 ;
    do c4 <- Int.mul colorValue 4 ;
    do bv <- Int.rem c4 255 ;
    Ok (mkRGB (to_uchar rv) (to_uchar gv) (to_uchar bv)).

(* The colour of the formula of [getColor] on mathematical integers, with
   the floor division and the remainder that is not negative. *)
Definition gradient (iterations maxIterations : Z) : RGB :=
  let colorValue := iterations * 255 / maxIterations in
  mkRGB (colorValue mod 255) (colorValue * 2 mod 255) (colorValue * 4 mod 255).

(** ** [std::complex<double>] *)

Record complex : Type := mkComplex { re : float; im : float }.

Definition czero : complex := mkComplex 0%float 0%float.

Definition cadd (a c : complex) : complex :=
  mkComplex (re a + re c)%float (im a + im c)%float.

(* The product is the one of the usual formula.  The recovery of infinite
   results that C99 Annex G adds runs only when both parts come out NaN,
   which needs infinite, NaN or overflowing terms; the loop multiplies [z]
   only after [norm z < 4.0] held, where both coordinates are finite and
   the real part of the square is not NaN (lemmas [bounded_finite] and
   [cmul_square_re_not_nan]). *)
Definition cmul (a c : complex) : complex :=
  mkComplex (re a * re c - im a * im c)%float
            (re a * im c + im a * re c)%float.

(* [std::norm]: the squared magnitude. *)
Definition norm (z : complex) : float :=
  (re z * re z + im z * im z)%float.

(** ** The escape loop (lines 59 to 69) *)

(* The loop condition [std::norm(z) < 4.0 && iterations < maxIterations]. *)
Definition loop_cond (z : complex) (iterations maxIterations : Z) : bool :=
  (norm z <? 4)%float && (iterations <? maxIterations).

(* The loop body: [z = z * z + c]. *)
Definition step (c z : complex) : complex := cadd (cmul z z) c.

(* [iterations++] stays an [int]: it runs under [iterations < maxIterations]. *)
Fixpoint escape_loop (fuel : nat) (c z : complex) (iterations maxIterations : Z)
  : complex * Z :=
  match fuel with
  | O => (z, iterations)
  | S fuel' =>
      if loop_cond z iterations maxIterations
      then escape_loop fuel' c (step c z) (iterations + 1) maxIterations
      else (z, iterations)
  end.

(* The loop from [z = 0] and [iterations = 0].  It runs at most
   [maxIterations] times, which is the fuel given; [escape_loop_fuel] and
   [escape_run_exits] show that the fuel is never what stops it. *)
Definition escape_run (c : complex) (maxIterations : Z) : complex * Z :=
  escape_loop (Z.to_nat maxIterations) c czero 0 maxIterations.

(* The value of [iterations] after the loop.  The source has the loop inline
   in [generateMandelbrot]; the name is the one the specification gives to
   this part. *)
Definition escapeTime (c : complex) (maxIterations : Z) : Z :=
  snd (escape_run c maxIterations).

(** The orbit of [z] under [z <- z * z + c]; the loop follows the one of 0. *)
Fixpoint orbit_from (c z : complex) (k : nat) : complex :=
  match k with
  | O => z
  | S k' => step c (orbit_from c z k')
  end.

Definition orbit (c : complex) (k : nat) : complex := orbit_from c czero k.

Definition c_minus_one : complex := mkComplex (-1) 0.

(* The first half of the loop condition: [std::norm(z) < 4.0]. *)
Definition bounded (z : complex) : bool := (norm z <? 4)%float.

(* How many of the points [z], [step c z], ... pass the test in a row, at
   most [n]: what the loop counts, as a function of the budget left. *)
Fixpoint escape_count (c z : complex) (n : nat) : nat :=
  match n with
  | O => O
  | S n' => if bounded z then S (escape_count c (step c z) n') else O
  end.

(** ** Pixel to plane (lines 43 to 55) *)

(* Zeros and finite numbers, on the specification side of a [double]. *)
Definition SFfinite (x : spec_float) : bool :=
  match x with
  | S754_zero _ | S754_finite _ _ _ => true
  | _ => false
  end.

(* A result of sign [s]: a zero, a finite number or an infinity, not NaN. *)
Definition SFsigned (s : bool) (x : spec_float) : Prop :=
  match x with
  | S754_zero s' | S754_infinity s' | S754_finite s' _ _ => s' = s
  | S754_nan => False
  end.

(* The conversion of an [int] to [double]; exact, as |n| < 2^53. *)
Definition of_int (n : Z) : float :=
  if n <? 0 then (- PrimFloat.of_uint63 (Uint63.of_Z (- n)))%float
  else PrimFloat.of_uint63 (Uint63.of_Z n).

Record view : Type := mkView
  { realStart : float; realEnd : float; imagStart : float; imagEnd : float }.

Definition view_of (zoom offsetX offsetY : float) : view :=
  mkView (-2.0 * zoom - offsetX)%float (1.0 * zoom - offsetX)%float
         (-1.5 * zoom - offsetY)%float (1.5 * zoom - offsetY)%float.

(* [start + (double)i / (dim - 1) * (end - start)]: the quotient first, then
   the product, then the sum.  The loops evaluate it with [dim >= 1] only,
   where [dim - 1] does not overflow. *)
Definition interpolate (start stop : float) (i dim : Z) : float :=
  (start + of_int i / of_int (dim - 1) * (stop - start))%float.

Definition pixel_coord (v : view) (width height x y : Z) : complex :=
  mkComplex (interpolate (realStart v) (realEnd v) x width)
            (interpolate (imagStart v) (imagEnd v) y height).

(** ** The renderer (lines 36 to 74) *)

Definition pixel_color (v : view) (width height maxIterations x y : Z)
  : outcome RGB :=
  getColor (escapeTime (pixel_coord v width height x y) maxIterations)
           maxIterations.

(* [image[i] = p]; an index outside the vector is undefined behaviour. *)
Definition store (image : list RGB) (i : Z) (p : RGB) : outcome (list RGB) :=
  if (0 <=? i) && (i <? Z.of_nat (length image))
  then Ok (<[Z.to_nat i := p]> image)
  else Undefined.

(* [for (int i = lo; i < hi; ++i) body] with [n] iterations left; the
   loops of the source start at 0 and run [Z.to_nat hi] times. *)
Fixpoint for_loop {St : Type} (n : nat) (i : Z) (body : Z -> St -> outcome St)
  (s : St) : outcome St :=
  match n with
  | O => Ok s
  | S n' => do s' <- body i s ; for_loop n' (i + 1) body s'
  end.

Definition render_pixel (v : view) (width height maxIterations y x : Z)
  (image : list RGB) : outcome (list RGB) :=
  do p <- pixel_color v width height maxIterations x y ;
  do yw <- Int.mul y width ;
  do i <- Int.add yw x ;
  store image i p.

Definition render_row (v : view) (width height maxIterations y : Z)
  (image : list RGB) : outcome (list RGB) :=
  for_loop (Z.to_nat width) 0 (render_pixel v width height maxIterations y)
    image.

(* The first [k] pixels, in row-major order, hold the colour of their
   position, in a buffer of [width * height] pixels. *)
Definition filled (v : view) (width height maxIterations : Z)
  (image : list RGB) (k : Z) : Prop :=
  length image = Z.to_nat (width * height) /\
  forall x y, 0 <= x < width -> 0 <= y -> y * width + x < k ->
    exists p, pixel_color v width height maxIterations x y = Ok p
              /\ image !! Z.to_nat (y * width + x) = Some p.

(* [std::vector<RGB> image(n)]: the [int] becomes a [size_t], so a negative
   [n] asks for more than [max_size()] elements and the constructor throws;
   otherwise [n] zero-initialised pixels. *)
Definition alloc (n : Z) : outcome (list RGB) :=
  if n <? 0 then Throws else Ok (replicate (Z.to_nat n) black).

Definition render (width height maxIterations : Z)
  (zoom offsetX offsetY : float) : outcome (list RGB) :=
  do n <- Int.mul width height ;
  do image <- alloc n ;
  let v := view_of zoom offsetX offsetY in
  for_loop (Z.to_nat height) 0 (render_row v width height maxIterations) image.

(** ** The PPM file (lines 76 to 93) and [main] (lines 99 to 124) *)

(* "\n", which is also what [std::endl] writes. *)
Definition newline : string := String "010"%char EmptyString.

(* [operator<<] on an [int]: decimal digits, a minus sign when negative. *)
Definition print_int (n : Z) : string := pretty n.

(* [ofs << (int)pixel.r << " " << (int)pixel.g << " " << (int)pixel.b
   << "\n"] *)
Definition ppm_pixel (p : RGB) : string :=
  print_int (r p) +:+ " " +:+ print_int (g p) +:+ " " +:+ print_int (b p)
  +:+ newline.

(* [ofs << "P3\n" << width << " " << height << "\n255\n"] *)
Definition ppm_header (width height : Z) : string :=
  "P3" +:+ newline +:+ print_int width +:+ " " +:+ print_int height
  +:+ newline +:+ "255" +:+ newline.

(* [for (const auto& pixel : image) ...] *)
Fixpoint ppm_body (image : list RGB) : string :=
  match image with
  | [] => EmptyString
  | p :: rest => ppm_pixel p +:+ ppm_body rest
  end.

Definition ppm (width height : Z) (image : list RGB) : string :=
  ppm_header width height +:+ ppm_body image.

(* What the program can change outside itself: the files, by name, and the
   text sent to [std::cout] and [std::cerr]. *)
Record world : Type := mkWorld
  { files : gmap string string; cout : string; cerr : string }.

(* The whole of [generateMandelbrot].  Whether [std::ofstream ofs(filename)]
   opens the file is the environment's choice, [writable]; opening truncates
   the file.  Failures of the writes after a successful opening are not
   looked at by the source and not modelled. *)
Definition generateMandelbrot (writable : string -> bool)
  (width height maxIterations : Z) (zoom offsetX offsetY : float)
  (filename : string) (w : world) : outcome world :=
  do image <- render width height maxIterations zoom offsetX offsetY ;
  if writable filename
  then Ok (mkWorld (<[filename := ppm width height image]> (files w))
                   (cout w +:+ "Mandelbrot image saved to " +:+ filename
                    +:+ newline)
                   (cerr w))
  else Ok (mkWorld (files w) (cout w)
                   (cerr w +:+ "Error: Could not open file " +:+ filename
                    +:+ " for writing." +:+ newline)).

(* The literals 0.001, -0.7436 and 0.1318 of [main], as the doubles they
   denote. *)
Definition main_zoom : float := 0x1.0624dd2f1a9fcp-10%float.
Definition main_offsetX : float := (-0x1.7cb923a29c77ap-1)%float.
Definition main_offsetY : float := 0x1.0ded288ce703bp-3%float.

(* [main]: the final world and the exit status. *)
Definition main (writable : string -> bool) (w : world) : outcome (world * Z) :=
  do w1 <- generateMandelbrot writable 800 600 100 1 0 0 "mandelbrot.ppm" w ;
  let w2 := mkWorld (files w1)
                    (cout w1 +:+ newline +:+ "Generating a zoomed-in view..."
                     +:+ newline)
                    (cerr w1) in
  do w3 <- generateMandelbrot writable 800 600 500
             main_zoom main_offsetX main_offsetY "mandelbrot_zoomed.ppm" w2 ;
  Ok (w3, 0).

(* The number of occurrences of a character in a string. *)
Fixpoint count_char (c : ascii) (s : string) : nat :=
  match s with
  | EmptyString => O
  | String a rest => (if Ascii.eqb a c then 1 else 0) + count_char c rest
  end.

(* A channel below 255, the value that [% 255] cannot give. *)
Definition below_255 (p : RGB) : Prop :=
  0 <= r p <= 254 /\ 0 <= g p <= 254 /\ 0 <= b p <= 254.

(** * Properties *)

(** ** The escape loop *)

Section EscapeLoop.

Variable c : complex.

Lemma orbit_from_step (z : complex) (k : nat) :
  orbit_from c (step c z) k = orbit_from c z (S k).
Proof.
  induction k as [|k IH]; simpl; [reflexivity|].
  rewrite IH. reflexivity.
Qed.

Lemma escape_count_le (z : complex) (n : nat) : (escape_count c z n <= n)%nat.
Proof.
  revert z. induction n as [|n IH]; intros z; simpl; [lia|].
  destruct (bounded z); [|lia]. specialize (IH (step c z)). lia.
Qed.

(* The points counted all pass the test. *)
Lemma escape_count_bounded (z : complex) (n k : nat) :
  (k < escape_count c z n)%nat -> bounded (orbit_from c z k) = true.
Proof.
  revert z k. induction n as [|n IH]; intros z k; simpl; [lia|].
  destruct (bounded z) eqn:Hz; [|lia].
  destruct k as [|k]; intros Hk; [exact Hz|].
  rewrite <- orbit_from_step. apply IH. lia.
Qed.

(* A count below the budget stops at a point that fails the test. *)
Lemma escape_count_stop (z : complex) (n : nat) :
  (escape_count c z n < n)%nat ->
  bounded (orbit_from c z (escape_count c z n)) = false.
Proof.
  revert z. induction n as [|n IH]; intros z; simpl; [lia|].
  destruct (bounded z) eqn:Hz; intros Hlt; [|exact Hz].
  rewrite <- orbit_from_step. apply IH. lia.
Qed.

Lemma escape_count_full (z : complex) (n : nat) :
  (forall k, (k < n)%nat -> bounded (orbit_from c z k) = true) ->
  escape_count c z n = n.
Proof.
  intros H. pose proof (escape_count_le z n) as Hle.
  destruct (Nat.eq_dec (escape_count c z n) n) as [E|E]; [exact E|].
  assert (Hlt : (escape_count c z n < n)%nat) by lia.
  pose proof (escape_count_stop z n Hlt) as Hs.
  rewrite (H _ Hlt) in Hs. discriminate.
Qed.

Lemma escape_count_mono (z : complex) (n m : nat) :
  (n <= m)%nat -> (escape_count c z n <= escape_count c z m)%nat.
Proof.
  revert z m. induction n as [|n IH]; intros z m Hnm; simpl; [lia|].
  destruct m as [|m]; [lia|]. simpl.
  destruct (bounded z); [|lia].
  specialize (IH (step c z) m). lia.
Qed.

(* The loop of the source computes [escape_count], whatever the fuel above
   the budget left, and ends on the orbit point of that index. *)
Lemma escape_loop_count (fuel : nat) (z : complex) (i N : Z) :
  N - i <= Z.of_nat fuel ->
  escape_loop fuel c z i N =
    (orbit_from c z (escape_count c z (Z.to_nat (N - i))),
     i + Z.of_nat (escape_count c z (Z.to_nat (N - i)))).
Proof.
  revert z i. induction fuel as [|fuel IH]; intros z i Hf.
  - simpl. replace (Z.to_nat (N - i)) with O by lia. simpl.
    f_equal. lia.
  - simpl. unfold loop_cond. fold (bounded z).
    destruct (Z.ltb_spec i N) as [Hlt|Hge].
    + replace (Z.to_nat (N - i)) with (S (Z.to_nat (N - (i + 1)))) by lia.
      simpl. destruct (bounded z) eqn:Hz; simpl.
      * rewrite IH by lia. rewrite orbit_from_step. f_equal. lia.
      * f_equal. lia.
    + replace (Z.to_nat (N - i)) with O by lia. simpl.
      rewrite andb_false_r. f_equal. lia.
Qed.

Lemma escape_run_count (N : Z) :
  escape_run c N =
    (orbit c (escape_count c czero (Z.to_nat N)),
     Z.of_nat (escape_count c czero (Z.to_nat N))).
Proof.
  unfold escape_run. rewrite escape_loop_count by lia.
  rewrite Z.sub_0_r. reflexivity.
Qed.

Lemma escapeTime_count (N : Z) :
  escapeTime c N = Z.of_nat (escape_count c czero (Z.to_nat N)).
Proof. unfold escapeTime. rewrite escape_run_count. reflexivity. Qed.

(* More fuel than the cap changes nothing: the loop has ended by itself. *)
Lemma escape_loop_fuel (fuel : nat) (N : Z) :
  (Z.to_nat N <= fuel)%nat ->
  escape_loop fuel c czero 0 N = escape_run c N.
Proof.
  intros H. unfold escape_run.
  rewrite !escape_loop_count by lia. reflexivity.
Qed.

(* On return the loop condition is false. *)
Lemma escape_run_exits (N : Z) :
  loop_cond (fst (escape_run c N)) (snd (escape_run c N)) N = false.
Proof.
  rewrite escape_run_count. simpl. unfold loop_cond, orbit.
  pose proof (escape_count_le czero (Z.to_nat N)) as Hle.
  destruct (Z.ltb_spec (Z.of_nat (escape_count c czero (Z.to_nat N))) N)
    as [Hlt|Hge]; [|apply andb_false_r].
  fold (bounded (orbit_from c czero (escape_count c czero (Z.to_nat N)))).
  rewrite escape_count_stop by lia. reflexivity.
Qed.

Lemma escapeTime_range (N : Z) : 0 <= escapeTime c N <= Z.max 0 N.
Proof.
  rewrite escapeTime_count.
  pose proof (escape_count_le czero (Z.to_nat N)). lia.
Qed.

(* The count is the index of the first orbit point that fails the test,
   when there is one below the cap. *)
Lemma escapeTime_first_escape (N : Z) :
  (forall k : nat, Z.of_nat k < escapeTime c N -> bounded (orbit c k) = true)
  /\ (escapeTime c N < N ->
      bounded (orbit c (Z.to_nat (escapeTime c N))) = false).
Proof.
  rewrite escapeTime_count. split.
  - intros k Hk. apply escape_count_bounded with (n := Z.to_nat N). lia.
  - intros Hlt. rewrite Nat2Z.id. apply escape_count_stop. lia.
Qed.

End EscapeLoop.

(** ** Facts on binary64 arithmetic

    Proved from the specification of the primitive operations
    ([FloatAxioms]) over [SpecFloat]. *)

Section Binary64.

Lemma SFcompare_antisym (x y : spec_float) :
  SFcompare x y = option_map CompOpp (SFcompare y x).
Proof.
  destruct x as [sx|sx| |sx mx ex], y as [sy|sy| |sy my ey]; simpl;
    try reflexivity;
    try (destruct sx; reflexivity); try (destruct sy; reflexivity);
    try (destruct sx, sy; reflexivity).
  destruct sx, sy; simpl; try reflexivity;
    rewrite (Z.compare_antisym ey ex);
    destruct (ey ?= ex); simpl; try reflexivity;
    rewrite (Pos.compare_cont_antisym my mx Eq); simpl;
    try rewrite CompOpp_involutive; reflexivity.
Qed.

(* [y <= x] excludes [x < y]. *)
Lemma float_leb_not_ltb (x y : float) :
  (y <=? x)%float = true -> (x <? y)%float = false.
Proof.
  rewrite FloatAxioms.leb_spec, FloatAxioms.ltb_spec. unfold SFleb, SFltb.
  rewrite (SFcompare_antisym (Prim2SF x) (Prim2SF y)).
  destruct (SFcompare (Prim2SF y) (Prim2SF x)) as [[]|]; simpl; congruence.
Qed.


Lemma is_finite_spec (x : float) :
  is_finite x = true ->
  (exists s, Prim2SF x = S754_zero s) \/
  (exists s m e, Prim2SF x = S754_finite s m e).
Proof.
  unfold is_finite, is_nan, is_infinity.
  rewrite !FloatAxioms.eqb_spec, abs_spec.
  change (Prim2SF infinity) with (S754_infinity false).
  destruct (Prim2SF x) as [s|[]| |s m e]; simpl; try discriminate;
    intros _; eauto 10.
Qed.

Lemma float_add_zero_l (x : float) :
  Prim2SF x <> S754_zero true -> (0 + x)%float = x.
Proof.
  intros H. apply Prim2SF_inj. rewrite add_spec.
  change (Prim2SF 0%float) with (S754_zero false).
  destruct (Prim2SF x) as [[]| | |]; try reflexivity. congruence.
Qed.

(* Adding to +0 can only turn -0 into +0, which the square does not see. *)
Lemma float_sqr_add_zero_l (x : float) :
  ((0 + x) * (0 + x))%float = (x * x)%float.
Proof.
  destruct (Prim2SF x) as [[]| | |] eqn:E;
    try (rewrite float_add_zero_l by congruence; reflexivity).
  assert (x = (-0)%float) as -> by (apply Prim2SF_inj; rewrite E; reflexivity).
  reflexivity.
Qed.










Lemma is_finite_intro (x : float) :
  SFfinite (Prim2SF x) = true -> is_finite x = true.
Proof.
  unfold is_finite, is_nan, is_infinity.
  rewrite !FloatAxioms.eqb_spec, abs_spec.
  change (Prim2SF infinity) with (S754_infinity false).
  destruct (Prim2SF x) as [s|s| |s m e]; simpl; try discriminate; intros _.
  - reflexivity.
  - unfold SFeqb. simpl.
    destruct s; rewrite Z.compare_refl, Pos.compare_cont_refl; reflexivity.
Qed.

(* A point that passes the loop test has two finite coordinates, so the
   product [z * z] of the loop body has finite operands. *)
Lemma bounded_finite (z : complex) :
  bounded z = true -> is_finite (re z) = true /\ is_finite (im z) = true.
Proof.
  intros H.
  cut (SFfinite (Prim2SF (re z)) = true /\ SFfinite (Prim2SF (im z)) = true).
  { intros [Hx Hy]. split; apply is_finite_intro; assumption. }
  revert H. unfold bounded, norm.
  rewrite FloatAxioms.ltb_spec, add_spec, !mul_spec.
  change (Prim2SF 4%float) with (S754_finite false 4503599627370496 (-50)).
  unfold SF64add, SF64mul.
  destruct (Prim2SF (re z)) as [sx|sx| |sx mx ex];
    destruct (Prim2SF (im z)) as [sy|sy| |sy my ey];
    try (intros _; split; reflexivity);
    try (destruct sx); try (destruct sy); simpl SFmul;
    try (simpl; discriminate);
    match goal with
    | |- context [binary_round_aux ?p ?q ?s ?m ?e ?l] =>
        destruct (binary_round_aux p q s m e l) as [[]|[]| |[]];
        simpl; discriminate
    end.
Qed.

(* Rounding keeps the sign and does not make a NaN. *)
Lemma iter_pos_inv {A : Type} (P : A -> Prop) (f : A -> A) (n : positive)
  (x : A) :
  (forall a, P a -> P (f a)) -> P x -> P (SpecFloat.iter_pos f n x).
Proof.
  intros Hf. revert x. induction n as [n IH|n IH|]; intros x Hx; simpl; auto.
Qed.

Lemma shr_1_nonneg (mrs : shr_record) :
  0 <= shr_m mrs -> 0 <= shr_m (shr_1 mrs).
Proof.
  destruct mrs as [m rb sb]. simpl.
  destruct m as [|[p|p|]|[p|p|]]; simpl; lia.
Qed.

Lemma shr_fexp_nonneg (m e : Z) (l : location) :
  0 <= m -> 0 <= shr_m (fst (shr_fexp prec emax m e l)).
Proof.
  intros Hm. unfold shr_fexp, shr.
  assert (H0 : 0 <= shr_m (shr_record_of_loc m l)).
  { destruct l as [|[]]; exact Hm. }
  destruct (fexp prec emax (Zdigits2 m + e) - e) as [|p|p]; simpl; try exact H0.
  apply (iter_pos_inv (fun mrs => 0 <= shr_m mrs));
    [apply shr_1_nonneg|exact H0].
Qed.

Lemma round_nearest_even_nonneg (m : Z) (l : location) :
  0 <= m -> 0 <= round_nearest_even m l.
Proof.
  intros Hm. unfold round_nearest_even.
  destruct l as [|[]]; try lia. destruct (Z.even m); lia.
Qed.

Lemma binary_round_aux_signed (s : bool) (m e : Z) (l : location) :
  0 <= m -> SFsigned s (binary_round_aux prec emax s m e l).
Proof.
  intros Hm. unfold binary_round_aux.
  pose proof (shr_fexp_nonneg m e l Hm) as H1.
  destruct (shr_fexp prec emax m e l) as [mrs' e']. simpl in H1.
  pose proof (shr_fexp_nonneg
                (round_nearest_even (shr_m mrs') (loc_of_shr_record mrs')) e'
                loc_Exact (round_nearest_even_nonneg _ _ H1)) as H2.
  destruct (shr_fexp prec emax
              (round_nearest_even (shr_m mrs') (loc_of_shr_record mrs')) e'
              loc_Exact) as [mrs'' e'']. simpl in H2.
  destruct (shr_m mrs'') as [|p|p]; simpl; try reflexivity; try lia.
  destruct (e'' <=? emax - prec); reflexivity.
Qed.

Lemma SFmul_square_signed (x : spec_float) :
  SFfinite x = true -> SFsigned false (SFmul prec emax x x).
Proof.
  destruct x as [s|s| |s m e]; simpl; try discriminate; intros _.
  - apply xorb_nilpotent.
  - rewrite xorb_nilpotent. apply binary_round_aux_signed. lia.
Qed.

Lemma binary_normalize_not_nan (m e : Z) :
  binary_normalize prec emax m e false <> S754_nan.
Proof.
  unfold binary_normalize, binary_round.
  destruct m as [|p|p]; [discriminate| |].
  - destruct (shl_align p e _) as [mz ez].
    pose proof (binary_round_aux_signed false (Zpos mz) ez loc_Exact
                  ltac:(lia)) as H.
    intros E. rewrite E in H. exact H.
  - destruct (shl_align p e _) as [mz ez].
    pose proof (binary_round_aux_signed true (Zpos mz) ez loc_Exact
                  ltac:(lia)) as H.
    intros E. rewrite E in H. exact H.
Qed.

(* Under the loop test the real part of [z * z] is not NaN, so the
   product of the loop body is the one of the formula. *)
Lemma cmul_square_re_not_nan (z : complex) :
  bounded z = true -> Prim2SF (re (cmul z z)) <> S754_nan.
Proof.
  intros H. destruct (bounded_finite z H) as [Hx Hy].
  assert (HX : SFfinite (Prim2SF (re z)) = true).
  { destruct (is_finite_spec _ Hx) as [[s ->]|(s & m & e & ->)]; reflexivity. }
  assert (HY : SFfinite (Prim2SF (im z)) = true).
  { destruct (is_finite_spec _ Hy) as [[s ->]|(s & m & e & ->)]; reflexivity. }
  apply SFmul_square_signed in HX, HY.
  revert H. unfold bounded, norm, cmul. simpl re.
  rewrite FloatAxioms.ltb_spec, add_spec, sub_spec, !mul_spec.
  change (Prim2SF 4%float) with (S754_finite false 4503599627370496 (-50)).
  unfold SF64add, SF64sub, SF64mul in *.
  destruct (SFmul prec emax (Prim2SF (re z)) (Prim2SF (re z)))
    as [sa|sa| |sa ma ea]; simpl in HX; try contradiction; subst sa;
    destruct (SFmul prec emax (Prim2SF (im z)) (Prim2SF (im z)))
    as [sb|sb| |sb mb eb]; simpl in HY; try contradiction; subst sb;
    simpl; try discriminate.
  intros _. apply binary_normalize_not_nan.
Qed.

End Binary64.

(** ** The first step of the orbit *)

(* After one update from 0 the squared magnitude is the one of [c]. *)
Lemma norm_step_zero (c : complex) : norm (step c czero) = norm c.
Proof.
  unfold step, cadd, cmul, norm, czero. simpl.
  change (0 * 0 - 0 * 0)%float with 0%float.
  change (0 * 0 + 0 * 0)%float with 0%float.
  rewrite !float_sqr_add_zero_l. reflexivity.
Qed.

Lemma escape_count_unbounded (c z : complex) (n : nat) :
  bounded z = false -> escape_count c z n = O.
Proof. intros H. destruct n; simpl; [|rewrite H]; reflexivity. Qed.

Lemma escape_run_first_step (c : complex) (N : Z) :
  1 <= N -> bounded c = false -> escape_run c N = (step c czero, 1).
Proof.
  intros HN Hc. rewrite escape_run_count.
  replace (Z.to_nat N) with (S (Z.to_nat (N - 1))) by lia.
  simpl escape_count.
  change (bounded czero) with true. cbv iota.
  rewrite escape_count_unbounded; [reflexivity|].
  unfold bounded. rewrite norm_step_zero. exact Hc.
Qed.

(** ** Known points *)



(** C1, as amended: when [|c|^2 >= 4] and the cap is at least 1, the loop
    runs its body exactly once and the count is 1.  The first test is made
    on [z = 0] and passes; the update sets [z] to [0 * 0 + c] and the count
    to 1; the second test fails. *)
Theorem escape_outside_radius (c : complex) (N : Z) :
  1 <= N -> (4 <=? norm c)%float = true ->
  escape_run c N = (step c czero, 1) /\ escapeTime c N = 1.
Proof.
  intros HN Hc. apply float_leb_not_ltb in Hc.
  assert (H : escape_run c N = (step c czero, 1))
    by (apply escape_run_first_step; assumption).
  split; [exact H|]. unfold escapeTime. rewrite H. reflexivity.
Qed.

Lemma escape_outside_radius_witness :
  escape_run (mkComplex 2 0) 100 = (step (mkComplex 2 0) czero, 1)
  /\ escapeTime (mkComplex 2 0) 100 = 1.
Proof.
  apply (escape_outside_radius (mkComplex 2 0) 100); [lia|reflexivity].
Defined.

(** C1 fails as stated: [c = 3] has [|c|^2 = 9 >= 4], and with the cap 10
    the count is 1, not 0. *)
Lemma escape_outside_radius_not_zero :
  (4 <=? norm (mkComplex 3 0))%float = true
  /\ 1 <= 10
  /\ escapeTime (mkComplex 3 0) 10 = 1
  /\ escapeTime (mkComplex 3 0) 10 <> 0.
Proof. repeat split; try reflexivity; [lia|]. vm_compute. discriminate. Qed.

(** C2, as amended: for a cap of at least 1 the count lies in
    [0, maxIterations], and it is [maxIterations] exactly when the points
    the loop tests, the orbit points of index 0 to [maxIterations - 1], all
    have [|z|^2 < 4].  The point of index [maxIterations] has no say. *)
Theorem escapeTime_sentinel (c : complex) (maxIterations : Z) :
  1 <= maxIterations ->
  0 <= escapeTime c maxIterations <= maxIterations /\
  (escapeTime c maxIterations = maxIterations <->
   forall k : nat, Z.of_nat k < maxIterations -> bounded (orbit c k) = true).
Proof.
  intros HN. split.
  - pose proof (escapeTime_range c maxIterations). lia.
  - rewrite escapeTime_count. split.
    + intros E k Hk.
      apply escape_count_bounded with (n := Z.to_nat maxIterations). lia.
    + intros H. rewrite escape_count_full; [lia|].
      intros k Hk. apply H. lia.
Qed.

Lemma escapeTime_sentinel_witness :
  0 <= escapeTime c_minus_one 7 <= 7 /\
  (escapeTime c_minus_one 7 = 7 <->
   forall k : nat, Z.of_nat k < 7 -> bounded (orbit c_minus_one k) = true).
Proof. apply (escapeTime_sentinel c_minus_one 7). lia. Defined.

(** C2 fails as stated: with [c = 2] and the cap 1 the count is the cap,
    the value kept for orbits that do not escape, and yet the orbit is at
    [|z|^2 = 4] after the one update of the budget; the loop left on the
    magnitude test. *)
Lemma sentinel_on_escaped_orbit :
  escapeTime (mkComplex 2 0) 1 = 1
  /\ orbit (mkComplex 2 0) 1 = mkComplex 2 0
  /\ (4 <=? norm (orbit (mkComplex 2 0) 1))%float = true
  /\ bounded (fst (escape_run (mkComplex 2 0) 1)) = false.
Proof. repeat split; reflexivity. Qed.

(** C5: for a fixed [c] the count does not decrease when the cap grows. *)
Theorem escapeTime_monotone (c : complex) (N1 N2 : Z) :
  N1 <= N2 -> escapeTime c N1 <= escapeTime c N2.
Proof.
  intros H. rewrite !escapeTime_count.
  apply inj_le. apply escape_count_mono. lia.
Qed.

Lemma escapeTime_monotone_witness :
  escapeTime (mkComplex 0.5 0.5) 3 <= escapeTime (mkComplex 0.5 0.5) 20.
Proof. apply (escapeTime_monotone (mkComplex 0.5 0.5) 3 20). lia. Defined.




(** C8: with [maxIterations <= 0] the loop body never runs: the count is 0
    and [z] is still the initial 0. *)
Theorem escape_cap_nonpositive (c : complex) (maxIterations : Z) :
  maxIterations <= 0 ->
  escape_run c maxIterations = (czero, 0) /\ escapeTime c maxIterations = 0.
Proof.
  intros H. unfold escapeTime, escape_run.
  replace (Z.to_nat maxIterations) with O by lia. split; reflexivity.
Qed.

Lemma escape_cap_nonpositive_witness :
  escape_run (mkComplex 1 1) (-3) = (czero, 0)
  /\ escapeTime (mkComplex 1 1) (-3) = 0.
Proof. apply (escape_cap_nonpositive (mkComplex 1 1) (-3)). lia. Defined.

(** ** Integer operations that succeed *)

Lemma Int_ret_ok (n : Z) :
  Int.INT_MIN <= n <= Int.INT_MAX -> Int.ret n = Ok n.
Proof.
  intros H. unfold Int.ret, Int.in_range.
  destruct (Z.leb_spec Int.INT_MIN n); [|lia].
  destruct (Z.leb_spec n Int.INT_MAX); [|lia]. reflexivity.
Qed.

Lemma Int_mul_ok (a c : Z) :
  Int.INT_MIN <= a * c <= Int.INT_MAX -> Int.mul a c = Ok (a * c).
Proof. apply Int_ret_ok. Qed.

Lemma Int_add_ok (a c : Z) :
  Int.INT_MIN <= a + c <= Int.INT_MAX -> Int.add a c = Ok (a + c).
Proof. apply Int_ret_ok. Qed.

(* On operands that are not negative, [/] and [%] are the floor division
   and its remainder. *)
Lemma Int_div_nonneg (a c : Z) :
  0 <= a <= Int.INT_MAX -> 0 < c -> Int.div a c = Ok (a / c).
Proof.
  intros Ha Hc. unfold Int.div.
  destruct (Z.eqb_spec c 0); [lia|].
  rewrite Z.quot_div_nonneg by lia.
  apply Int_ret_ok. unfold Int.INT_MIN.
  pose proof (Z.div_pos a c ltac:(lia) Hc).
  assert (a / c <= a) by (apply Z.div_le_upper_bound; nia). lia.
Qed.

Lemma Int_rem_nonneg (a c : Z) :
  0 <= a <= Int.INT_MAX -> 0 < c -> Int.rem a c = Ok (a mod c).
Proof.
  intros Ha Hc. unfold Int.rem.
  destruct (Z.eqb_spec c 0); [lia|].
  rewrite Z.quot_div_nonneg, Z.rem_mod_nonneg by lia.
  unfold Int.in_range.
  pose proof (Z.div_pos a c ltac:(lia) Hc).
  assert (a / c <= a) by (apply Z.div_le_upper_bound; nia).
  destruct (Z.leb_spec Int.INT_MIN (a / c)); [|unfold Int.INT_MIN in *; lia].
  destruct (Z.leb_spec (a / c) Int.INT_MAX); [|lia]. reflexivity.
Qed.

(* One integer operation of a sequence, when it is defined. *)
Ltac int_step :=
  first [ rewrite Int_mul_ok by lia
        | rewrite Int_add_ok by lia
        | rewrite Int_div_nonneg by lia
        | rewrite Int_rem_nonneg by lia ];
  cbn [bind].

(** ** The colour mapper *)

Lemma getColor_sentinel (N : Z) : getColor N N = Ok black.
Proof. unfold getColor. rewrite Z.eqb_refl. reflexivity. Qed.

Lemma colorValue_range (iterations maxIterations : Z) :
  0 <= iterations < maxIterations ->
  0 <= iterations * 255 / maxIterations < 255.
Proof.
  intros H. split.
  - apply Z.div_pos; lia.
  - apply Z.div_lt_upper_bound; lia.
Qed.

Lemma getColor_gradient (iterations maxIterations : Z) :
  0 <= iterations -> 0 < maxIterations -> iterations <> maxIterations ->
  iterations * 255 <= Int.INT_MAX ->
  iterations * 255 / maxIterations * 4 <= Int.INT_MAX ->
  getColor iterations maxIterations = Ok (gradient iterations maxIterations).
Proof.
  intros Hi HN Hne Hov Hov4. unfold getColor, gradient.
  assert (Hcv : 0 <= iterations * 255 / maxIterations)
    by (apply Z.div_pos; lia).
  destruct (Z.eqb_spec iterations maxIterations); [lia|].
  set (cv := iterations * 255 / maxIterations) in *.
  assert (HM : Int.INT_MAX = 2147483647) by reflexivity.
  assert (Hm : Int.INT_MIN = -2147483648) by reflexivity.
  int_step. int_step. fold cv. do 5 int_step.
  unfold to_uchar.
  pose proof (Z.mod_pos_bound cv 255 ltac:(lia)).
  pose proof (Z.mod_pos_bound (cv * 2) 255 ltac:(lia)).
  pose proof (Z.mod_pos_bound (cv * 4) 255 ltac:(lia)).
  rewrite (Z.mod_small (cv mod 255) 256), (Z.mod_small (cv * 2 mod 255) 256),
    (Z.mod_small (cv * 4 mod 255) 256) by lia.
  reflexivity.
Qed.

Lemma gradient_valid (iterations maxIterations : Z) :
  valid_RGB (gradient iterations maxIterations).
Proof.
  unfold valid_RGB, valid_channel, gradient. simpl.
  set (cv := iterations * 255 / maxIterations).
  pose proof (Z.mod_pos_bound cv 255 ltac:(lia)).
  pose proof (Z.mod_pos_bound (cv * 2) 255 ltac:(lia)).
  pose proof (Z.mod_pos_bound (cv * 4) 255 ltac:(lia)). lia.
Qed.

Lemma black_valid : valid_RGB black.
Proof. unfold valid_RGB, valid_channel. simpl. lia. Qed.

(* The gradient is black only for a colour value of 0. *)
Lemma gradient_black (iterations maxIterations : Z) :
  0 <= iterations < maxIterations ->
  gradient iterations maxIterations = black <->
  iterations * 255 < maxIterations.
Proof.
  intros H. unfold gradient, black.
  pose proof (colorValue_range iterations maxIterations H) as Hcv.
  set (cv := iterations * 255 / maxIterations) in *.
  split.
  - intros E. injection E as E _ _. rewrite Z.mod_small in E by lia.
    subst cv. apply Z.div_small_iff in E; lia.
  - intros Hlt. assert (cv = 0) as -> by (apply Z.div_small; lia).
    reflexivity.
Qed.

(* A count of the escape loop never makes [getColor] undefined, for a
   cap up to 8421505 = INT_MAX / 255 + 1; negative caps included. *)
Lemma getColor_defined (iterations maxIterations : Z) :
  Int.INT_MIN <= maxIterations <= 8421505 ->
  0 <= iterations <= Z.max 0 maxIterations ->
  exists p, getColor iterations maxIterations = Ok p /\ valid_RGB p.
Proof.
  intros HN Hi.
  destruct (Z.eq_dec iterations maxIterations) as [->|Hne].
  { exists black. split; [apply getColor_sentinel|apply black_valid]. }
  destruct (Z.le_gt_cases maxIterations 0) as [Hle|Hgt].
  - assert (iterations = 0) as -> by lia.
    exists black. split; [|apply black_valid].
    unfold getColor. destruct (Z.eqb_spec 0 maxIterations); [lia|].
    change (Int.mul 0 255) with (@Ok Z 0). cbn [bind].
    unfold Int.div. destruct (Z.eqb_spec maxIterations 0); [lia|].
    rewrite Z.quot_0_l by lia. reflexivity.
  - exists (gradient iterations maxIterations).
    split; [|apply gradient_valid].
    pose proof (colorValue_range iterations maxIterations ltac:(lia)).
    apply getColor_gradient; unfold Int.INT_MAX; lia.
Qed.

(** C4, as amended: for a count that is not negative and a cap of at least
    1, short of signed overflow, [getColor] returns black when
    [iterations == maxIterations] and the colour of the formula otherwise,
    with [/] the floor division and [%] the remainder.  Black is not kept
    for the sentinel: up to the cap it is returned exactly when
    [iterations == maxIterations] or [iterations * 255 < maxIterations]. *)
Theorem getColor_spec (iterations maxIterations : Z) :
  1 <= maxIterations -> 0 <= iterations ->
  (iterations <> maxIterations ->
   iterations * 255 <= Int.INT_MAX /\
   iterations * 255 / maxIterations * 4 <= Int.INT_MAX) ->
  getColor iterations maxIterations =
    Ok (if iterations =? maxIterations then black
        else gradient iterations maxIterations)
  /\ (iterations <= maxIterations ->
      (getColor iterations maxIterations = Ok black <->
       iterations = maxIterations \/ iterations * 255 < maxIterations)).
Proof.
  intros HN Hi Hov.
  destruct (Z.eqb_spec iterations maxIterations) as [->|Hne].
  - rewrite getColor_sentinel. split; [reflexivity|].
    intros _. split; [left|]; reflexivity.
  - destruct (Hov Hne) as [H1 H2].
    rewrite getColor_gradient by lia. split; [reflexivity|].
    intros Hle. rewrite <- gradient_black by lia. split.
    + intros E. right. congruence.
    + intros [E|E]; [lia|]. rewrite E. reflexivity.
Qed.

Lemma getColor_spec_witness :
  getColor 3 10 = Ok (if 3 =? 10 then black else gradient 3 10)
  /\ (3 <= 10 -> (getColor 3 10 = Ok black <-> 3 = 10 \/ 3 * 255 < 10)).
Proof.
  apply (getColor_spec 3 10); [lia|lia|].
  intros _. split; apply Z.leb_le; reflexivity.
Defined.

(** C4 fails as stated: black is returned for counts other than the cap,
    whenever the colour value is 0: for the count 0 with the cap 1, and for
    the count 1 with the cap 500 of the zoomed view of [main]. *)
Lemma getColor_black_without_sentinel :
  getColor 0 1 = Ok black /\ 0 <> 1 /\
  getColor 1 500 = Ok black /\ 1 <> 500.
Proof. repeat split; try reflexivity; lia. Qed.

(** ** The renderer *)

Lemma for_loop_inv {St : Type} (P : Z -> St -> Prop)
  (body : Z -> St -> outcome St) (n : nat) (i : Z) (s : St) :
  P i s ->
  (forall j t, i <= j < i + Z.of_nat n -> P j t ->
               exists t', body j t = Ok t' /\ P (j + 1) t') ->
  exists s', for_loop n i body s = Ok s' /\ P (i + Z.of_nat n) s'.
Proof.
  revert i s. induction n as [|n IH]; intros i s Hs Hbody.
  - exists s. split; [reflexivity|]. rewrite Z.add_0_r. exact Hs.
  - destruct (Hbody i s ltac:(lia) Hs) as (t & Ht & HP).
    destruct (IH (i + 1) t HP) as (s' & Hs' & HP').
    { intros j u Hj. apply Hbody. lia. }
    exists s'. split.
    + cbn [for_loop]. rewrite Ht. exact Hs'.
    + replace (i + Z.of_nat (S n)) with (i + 1 + Z.of_nat n) by lia. exact HP'.
Qed.

Lemma pixel_color_defined (v : view) (W H N x y : Z) :
  Int.INT_MIN <= N <= 8421505 ->
  exists p, pixel_color v W H N x y = Ok p /\ valid_RGB p.
Proof.
  intros HN. unfold pixel_color. apply getColor_defined; [exact HN|].
  apply escapeTime_range.
Qed.

(* A pixel index has one row and one column. *)
Lemma pixel_index_inj (W x y x' y' : Z) :
  0 <= x < W -> 0 <= x' < W -> y * W + x = y' * W + x' -> x = x' /\ y = y'.
Proof.
  intros Hx Hx' E.
  assert (y = y').
  { destruct (Z.lt_trichotomy y y') as [Hlt|[Heq|Hgt]]; [|exact Heq|]; nia. }
  subst. lia.
Qed.

Section Render.

Variables (v : view) (W H N : Z).
Hypothesis HW : 0 <= W.
Hypothesis HH : 0 <= H.
Hypothesis HWH : W * H <= Int.INT_MAX.
Hypothesis HN : Int.INT_MIN <= N <= 8421505.

Lemma render_pixel_step (x y : Z) (image : list RGB) :
  0 <= x < W -> 0 <= y < H ->
  filled v W H N image (y * W + x) ->
  exists image', render_pixel v W H N y x image = Ok image'
                 /\ filled v W H N image' (y * W + (x + 1)).
Proof.
  intros Hx Hy [Hlen Hfill].
  destruct (pixel_color_defined v W H N x y HN) as (p & Hp & Hvalid).
  assert (HM : Int.INT_MAX = 2147483647) by reflexivity.
  assert (Hm : Int.INT_MIN = -2147483648) by reflexivity.
  assert (Hidx : 0 <= y * W + x < W * H) by nia.
  exists (<[Z.to_nat (y * W + x) := p]> image). split.
  - unfold render_pixel. rewrite Hp. cbn [bind].
    rewrite Int_mul_ok by nia. cbn [bind].
    rewrite Int_add_ok by nia. cbn [bind].
    unfold store. rewrite Hlen.
    destruct (Z.leb_spec 0 (y * W + x)); [|lia].
    destruct (Z.ltb_spec (y * W + x) (Z.of_nat (Z.to_nat (W * H)))); [|lia].
    reflexivity.
  - split; [rewrite length_insert; exact Hlen|].
    intros x' y' Hx' Hy' Hlt.
    destruct (Z.eq_dec (y' * W + x') (y * W + x)) as [E|E].
    + destruct (pixel_index_inj W x' y' x y Hx' Hx E) as [-> ->].
      exists p. split; [exact Hp|].
      apply list_lookup_insert_eq. lia.
    + destruct (Hfill x' y' Hx' Hy' ltac:(lia)) as (q & Hq & Hlook).
      exists q. split; [exact Hq|].
      rewrite list_lookup_insert_ne by nia. exact Hlook.
Qed.

Lemma render_row_step (y : Z) (image : list RGB) :
  0 <= y < H ->
  filled v W H N image (y * W) ->
  exists image', render_row v W H N y image = Ok image'
                 /\ filled v W H N image' ((y + 1) * W).
Proof.
  intros Hy Hfill. unfold render_row.
  destruct (for_loop_inv (fun x image => filled v W H N image (y * W + x))
              (render_pixel v W H N y) (Z.to_nat W) 0 image)
    as (image' & Hrun & Hfill').
  - rewrite Z.add_0_r. exact Hfill.
  - intros x t Hx Ht. apply render_pixel_step; [lia|exact Hy|exact Ht].
  - exists image'. split; [exact Hrun|].
    replace ((y + 1) * W) with (y * W + (0 + Z.of_nat (Z.to_nat W))) by lia.
    exact Hfill'.
Qed.

Lemma alloc_filled :
  filled v W H N (replicate (Z.to_nat (W * H)) black) 0.
Proof.
  split; [apply length_replicate|]. intros x y Hx Hy Hlt. nia.
Qed.

Lemma render_rows_filled :
  exists image,
    for_loop (Z.to_nat H) 0 (render_row v W H N)
      (replicate (Z.to_nat (W * H)) black) = Ok image
    /\ filled v W H N image (H * W).
Proof.
  destruct (for_loop_inv (fun y image => filled v W H N image (y * W))
              (render_row v W H N) (Z.to_nat H) 0
              (replicate (Z.to_nat (W * H)) black))
    as (image & Hrun & Hfill).
  - exact alloc_filled.
  - intros y t Hy Ht. apply render_row_step; [lia|exact Ht].
  - exists image. split; [exact Hrun|].
    replace (H * W) with ((0 + Z.of_nat (Z.to_nat H)) * W) by lia.
    exact Hfill.
Qed.

End Render.

Lemma render_unfold (W H N : Z) (zoom offsetX offsetY : float) :
  Int.INT_MIN <= W * H <= Int.INT_MAX -> 0 <= W * H ->
  render W H N zoom offsetX offsetY =
    for_loop (Z.to_nat H) 0 (render_row (view_of zoom offsetX offsetY) W H N)
      (replicate (Z.to_nat (W * H)) black).
Proof.
  intros Hr Hpos. unfold render. rewrite Int_mul_ok by exact Hr. cbn [bind].
  unfold alloc. destruct (Z.ltb_spec (W * H) 0); [lia|]. reflexivity.
Qed.

(* The renderer fills the whole buffer, for every size that is not
   negative, the sizes 0 and 1 included. *)
Lemma render_filled (W H N : Z) (zoom offsetX offsetY : float) :
  0 <= W -> 0 <= H -> W * H <= Int.INT_MAX ->
  Int.INT_MIN <= N <= 8421505 ->
  exists image,
    render W H N zoom offsetX offsetY = Ok image
    /\ filled (view_of zoom offsetX offsetY) W H N image (H * W).
Proof.
  intros HW HH HWH HN.
  rewrite render_unfold by (unfold Int.INT_MIN; nia).
  apply render_rows_filled; assumption.
Qed.

(* Every index of a filled buffer holds the colour of its pixel. *)
Lemma filled_lookup (v : view) (W H N : Z) (image : list RGB) (i : nat) :
  0 <= W -> 0 <= H ->
  filled v W H N image (H * W) -> (i < Z.to_nat (W * H))%nat ->
  exists p, image !! i = Some p
            /\ pixel_color v W H N (Z.of_nat i mod W) (Z.of_nat i / W) = Ok p.
Proof.
  intros HW HH [Hlen Hfill] Hi.
  assert (HWpos : 0 < W) by nia.
  pose proof (Z.mod_pos_bound (Z.of_nat i) W HWpos) as Hmod.
  pose proof (Z.div_pos (Z.of_nat i) W ltac:(lia) HWpos) as Hdiv.
  pose proof (Z.div_mod (Z.of_nat i) W ltac:(lia)) as Hdm.
  destruct (Hfill (Z.of_nat i mod W) (Z.of_nat i / W) Hmod Hdiv ltac:(nia))
    as (p & Hp & Hlook).
  exists p. split; [|exact Hp].
  replace (Z.to_nat (Z.of_nat i / W * W + Z.of_nat i mod W)) with i in Hlook
    by lia.
  exact Hlook.
Qed.

(** C7, as amended: [generateMandelbrot] checks none of its parameters.
    Whenever [width * height] fits an [int] and is not negative, and for
    every cap up to 8421505, zero and negative caps included, it runs to
    the end and returns a buffer of [width * height] pixels: widths and
    heights of 0 and 1 are rendered like the others.  The only call that
    stops early is the one with a negative [width * height], where the
    constructor of the vector throws. *)
Theorem render_checks_nothing (width height maxIterations : Z)
  (zoom offsetX offsetY : float) :
  Int.INT_MIN <= width * height <= Int.INT_MAX ->
  Int.INT_MIN <= maxIterations <= 8421505 ->
  (width * height < 0 ->
   render width height maxIterations zoom offsetX offsetY = Throws) /\
  (0 <= width * height ->
   exists image,
     render width height maxIterations zoom offsetX offsetY = Ok image
     /\ length image = Z.to_nat (width * height)).
Proof.
  intros Hr HN. split.
  - intros Hneg. unfold render. rewrite Int_mul_ok by exact Hr. cbn [bind].
    unfold alloc. destruct (Z.ltb_spec (width * height) 0); [|lia].
    reflexivity.
  - intros Hpos. destruct (Z.le_gt_cases height 0) as [Hle|Hgt].
    + rewrite render_unfold by assumption.
      replace (Z.to_nat height) with O by lia.
      eexists. split; [reflexivity|]. apply length_replicate.
    + destruct (render_filled width height maxIterations zoom offsetX offsetY)
        as (image & Hrun & Hlen & _); try lia; try nia.
      exists image. split; assumption.
Qed.

Lemma render_checks_nothing_witness :
  exists image, render 1 1 0 1 0 0 = Ok image /\ length image = 1%nat.
Proof.
  destruct (render_checks_nothing 1 1 0 1 0 0) as [_ H].
  - unfold Int.INT_MIN, Int.INT_MAX. lia.
  - unfold Int.INT_MIN. lia.
  - apply H. lia.
Defined.

(** C7 fails as stated: a render of width 1 and height 1 returns its
    pixel, and renders with the caps 0 and -4 return their buffers. *)
Lemma render_without_validation :
  render 1 1 1 1 0 0 = Ok [black]
  /\ render 2 2 0 1 0 0 = Ok [black; black; black; black]
  /\ render 3 1 (-4) 1 0 0 = Ok [black; black; black].
Proof. repeat split; vm_compute; reflexivity. Qed.

(** C9: [render(4, 4, 10, 1.0, 0, 0)] returns a buffer of 16 pixels, each
    channel of each pixel lies in [0, 255], and the pixel at index
    [y * 4 + x] is the colour computed for the pixel [(x, y)]. *)
Theorem render_4_4_10 :
  exists image,
    render 4 4 10 1 0 0 = Ok image
    /\ length image = 16%nat
    /\ Forall valid_RGB image
    /\ forall x y, 0 <= x < 4 -> 0 <= y < 4 ->
         exists p, pixel_color (view_of 1 0 0) 4 4 10 x y = Ok p
                   /\ image !! Z.to_nat (y * 4 + x) = Some p.
Proof.
  destruct (render_filled 4 4 10 1 0 0) as (image & Hrun & Hfill);
    try (unfold Int.INT_MIN, Int.INT_MAX; lia).
  exists image. split; [exact Hrun|].
  assert (Himage : Ok image = render 4 4 10 1 0 0) by (symmetry; exact Hrun).
  vm_compute in Himage. injection Himage as Himage.
  split; [rewrite Himage; reflexivity|]. split.
  - rewrite Himage.
    repeat (apply Forall_cons; split;
            [unfold valid_RGB, valid_channel; simpl; lia|]).
    apply Forall_nil. exact I.
  - intros x y Hx Hy. destruct Hfill as [_ Hfill].
    apply Hfill; lia.
Qed.

Lemma render_4_4_10_witness :
  exists image,
    render 4 4 10 1 0 0 = Ok image
    /\ exists p, pixel_color (view_of 1 0 0) 4 4 10 1 2 = Ok p
                 /\ image !! 9%nat = Some p.
Proof.
  destruct render_4_4_10 as (image & Hrun & _ & _ & Hpix).
  exists image. split; [exact Hrun|].
  apply (Hpix 1 2); lia.
Defined.

(** C10: with [maxIterations == 0] every count is 0, so every call of
    [getColor] takes the branch [iterations == maxIterations] and returns
    black before the division; the render is defined and its buffer is
    black everywhere. *)
Theorem render_zero_cap (width height : Z) (zoom offsetX offsetY : float) :
  0 <= width -> 0 <= height -> width * height <= Int.INT_MAX ->
  (forall c, escapeTime c 0 = 0) /\
  (forall x y,
     pixel_color (view_of zoom offsetX offsetY) width height 0 x y
     = Ok black) /\
  render width height 0 zoom offsetX offsetY =
    Ok (replicate (Z.to_nat (width * height)) black).
Proof.
  intros HW HH HWH.
  assert (Hpix : forall v x y, pixel_color v width height 0 x y = Ok black)
    by reflexivity.
  split; [reflexivity|]. split; [intros x y; apply Hpix|].
  destruct (render_filled width height 0 zoom offsetX offsetY)
    as (image & Hrun & Hfill); try assumption.
  { unfold Int.INT_MIN. lia. }
  rewrite Hrun. f_equal. apply list_eq. intros i.
  destruct (Nat.lt_ge_cases i (Z.to_nat (width * height))) as [Hlt|Hge].
  - destruct (filled_lookup _ _ _ _ _ i HW HH Hfill Hlt) as (p & Hlook & Hp).
    rewrite Hpix in Hp. injection Hp as <-.
    rewrite Hlook. symmetry. apply lookup_replicate_2. exact Hlt.
  - destruct Hfill as [Hlen _].
    rewrite (lookup_ge_None_2 image i) by lia.
    symmetry. apply lookup_ge_None_2. rewrite length_replicate. exact Hge.
Qed.

Lemma render_zero_cap_witness :
  render 3 2 0 1 0 0 = Ok (replicate (Z.to_nat (3 * 2)) black).
Proof.
  destruct (render_zero_cap 3 2 1 0 0) as (_ & _ & H);
    [lia|lia|unfold Int.INT_MAX; lia|exact H].
Defined.

(** ** The pixel mapping at the ends of an axis *)







(** * Further properties of the code *)

(** ** The escape loop *)

(** X1: the [while] loop ends by its own condition.  With any fuel of at
    least [maxIterations] the result is the one of [escape_run], the loop
    condition is false on that result, and the body ran at most
    [max(0, maxIterations)] times. *)
Theorem escape_loop_terminates (c : complex) (maxIterations : Z) (fuel : nat) :
  (Z.to_nat maxIterations <= fuel)%nat ->
  escape_loop fuel c czero 0 maxIterations = escape_run c maxIterations /\
  loop_cond (fst (escape_run c maxIterations))
            (snd (escape_run c maxIterations)) maxIterations = false /\
  0 <= escapeTime c maxIterations <= Z.max 0 maxIterations.
Proof.
  intros Hfuel. split; [apply escape_loop_fuel; exact Hfuel|].
  split; [apply escape_run_exits|apply escapeTime_range].
Qed.

Lemma escape_loop_terminates_witness :
  escape_loop 50 (mkComplex 1 0) czero 0 10 = escape_run (mkComplex 1 0) 10 /\
  loop_cond (fst (escape_run (mkComplex 1 0) 10))
            (snd (escape_run (mkComplex 1 0) 10)) 10 = false /\
  0 <= escapeTime (mkComplex 1 0) 10 <= Z.max 0 10.
Proof. apply (escape_loop_terminates (mkComplex 1 0) 10 50). lia. Defined.

(** X2: the count is the index of the first orbit point that fails
    [norm(z) < 4.0], when there is one below the cap: every orbit point of
    a smaller index passes the test, a count below the cap is the index of
    a point that fails it, and the loop leaves [z] on the orbit point of
    that index. *)
Theorem escape_run_first_escape (c : complex) (maxIterations : Z) :
  fst (escape_run c maxIterations) =
    orbit c (Z.to_nat (escapeTime c maxIterations)) /\
  (forall k : nat, Z.of_nat k < escapeTime c maxIterations ->
                   bounded (orbit c k) = true) /\
  (escapeTime c maxIterations < maxIterations ->
   bounded (orbit c (Z.to_nat (escapeTime c maxIterations))) = false).
Proof.
  split; [|apply escapeTime_first_escape].
  rewrite escapeTime_count, escape_run_count, Nat2Z.id. reflexivity.
Qed.

Lemma escape_run_first_escape_witness :
  bounded (orbit (mkComplex 1 0) (Z.to_nat (escapeTime (mkComplex 1 0) 10)))
  = false.
Proof.
  destruct (escape_run_first_escape (mkComplex 1 0) 10) as (_ & _ & H).
  apply H. reflexivity.
Defined.

(** X3: with a cap of at least 1 the count is at least 1: the first test
    is made on [z = 0] and always passes, so 0 is returned for caps that
    are not positive only. *)
Theorem escapeTime_at_least_one (c : complex) (maxIterations : Z) :
  1 <= maxIterations -> 1 <= escapeTime c maxIterations.
Proof.
  intros HN. rewrite escapeTime_count.
  replace (Z.to_nat maxIterations) with (S (Z.to_nat (maxIterations - 1)))
    by lia.
  cbn [escape_count]. change (bounded czero) with true. cbv iota. lia.
Qed.

Lemma escapeTime_at_least_one_witness : 1 <= escapeTime (mkComplex 5 5) 3.
Proof. apply (escapeTime_at_least_one (mkComplex 5 5) 3). lia. Defined.



(** ** The colour mapper *)

(* A count of 0 with a negative cap: the division gives 0 and the colour
   is black. *)
Lemma getColor_zero_count (maxIterations : Z) :
  Int.INT_MIN <= maxIterations <= Int.INT_MAX ->
  getColor 0 maxIterations = Ok black.
Proof.
  intros HN. unfold getColor.
  destruct (Z.eqb_spec 0 maxIterations) as [|Hne]; [reflexivity|].
  change (Int.mul 0 255) with (@Ok Z 0). cbn [bind].
  unfold Int.div. destruct (Z.eqb_spec maxIterations 0); [lia|].
  rewrite Z.quot_0_l by lia. reflexivity.
Qed.

(* A colour that [getColor] returns for a count of the loop has no channel
   at 255. *)
Lemma getColor_below_255 (iterations maxIterations : Z) (p : RGB) :
  0 <= iterations <= Z.max 0 maxIterations ->
  getColor iterations maxIterations = Ok p -> below_255 p.
Proof.
  intros Hi. unfold getColor.
  destruct (Z.eqb_spec iterations maxIterations) as [E|Hne].
  { intros [= <-]. unfold below_255. simpl. lia. }
  unfold Int.mul, Int.ret.
  destruct (Int.in_range (iterations * 255)) eqn:Hr; cbn [bind];
    [|discriminate].
  unfold Int.div. destruct (Z.eqb_spec maxIterations 0); [discriminate|].
  unfold Int.ret.
  destruct (Int.in_range (iterations * 255 ÷ maxIterations)); cbn [bind];
    [|discriminate].
  assert (Hcv : 0 <= iterations * 255 ÷ maxIterations).
  { destruct (Z.le_gt_cases maxIterations 0).
    - assert (iterations = 0) as -> by lia. rewrite Z.quot_0_l by lia. lia.
    - apply Z.quot_pos; lia. }
  set (cv := iterations * 255 ÷ maxIterations) in *.
  unfold Int.rem, Int.mul, Int.ret. simpl (255 =? 0).
  destruct (Int.in_range (cv ÷ 255)); cbn [bind]; [|discriminate].
  destruct (Int.in_range (cv * 2)); cbn [bind]; [|discriminate].
  destruct (Int.in_range (cv * 2 ÷ 255)); cbn [bind]; [|discriminate].
  destruct (Int.in_range (cv * 4)); cbn [bind]; [|discriminate].
  destruct (Int.in_range (cv * 4 ÷ 255)); cbn [bind]; [|discriminate].
  intros [= <-]. unfold below_255, to_uchar. simpl.
  rewrite !Z.rem_mod_nonneg by lia.
  pose proof (Z.mod_pos_bound cv 255 ltac:(lia)).
  pose proof (Z.mod_pos_bound (cv * 2) 255 ltac:(lia)).
  pose proof (Z.mod_pos_bound (cv * 4) 255 ltac:(lia)).
  rewrite (Z.mod_small (cv mod 255) 256), (Z.mod_small (cv * 2 mod 255) 256),
    (Z.mod_small (cv * 4 mod 255) 256) by lia.
  lia.
Qed.

(** X4: [getColor] is defined on every count the loop can return as long as
    the cap is at most 8421505, and not beyond: a count above 8421504 that
    is not the cap makes [iterations * 255] overflow [int], which is
    undefined behaviour. *)
Theorem getColor_cap_limit (c : complex) (iterations maxIterations : Z) :
  (Int.INT_MIN <= maxIterations <= 8421505 ->
   exists p, getColor (escapeTime c maxIterations) maxIterations = Ok p) /\
  (8421504 < iterations -> iterations <> maxIterations ->
   getColor iterations maxIterations = Undefined).
Proof.
  split.
  - intros HN.
    destruct (getColor_defined (escapeTime c maxIterations) maxIterations HN
                (escapeTime_range c maxIterations)) as (p & Hp & _).
    exists p. exact Hp.
  - intros Hi Hne. unfold getColor.
    destruct (Z.eqb_spec iterations maxIterations); [contradiction|].
    unfold Int.mul, Int.ret, Int.in_range.
    destruct (Z.leb_spec (iterations * 255) Int.INT_MAX) as [Hle|_].
    + unfold Int.INT_MAX in Hle. lia.
    + rewrite andb_false_r. reflexivity.
Qed.

Lemma getColor_cap_limit_witness :
  (exists p, getColor (escapeTime (mkComplex 1 0) 500) 500 = Ok p) /\
  getColor 8421505 8421506 = Undefined.
Proof.
  destruct (getColor_cap_limit (mkComplex 1 0) 8421505 500) as [H1 _].
  destruct (getColor_cap_limit (mkComplex 1 0) 8421505 8421506) as [_ H2].
  split.
  - apply H1. unfold Int.INT_MIN. lia.
  - apply H2; lia.
Defined.

(** X5: for a cap of at most 255, a count from 1 to below the cap gets a
    colour whose red channel is not 0: black then marks the sentinel
    [iterations == maxIterations] and nothing else among the counts the
    loop returns for that cap. *)
Theorem getColor_black_iff_sentinel (iterations maxIterations : Z) :
  1 <= iterations <= maxIterations -> maxIterations <= 255 ->
  exists p, getColor iterations maxIterations = Ok p /\
            (p = black <-> iterations = maxIterations) /\
            (iterations < maxIterations -> 1 <= r p <= 254).
Proof.
  intros Hi HN.
  destruct (Z.eq_dec iterations maxIterations) as [->|Hne].
  - exists black. rewrite getColor_sentinel.
    split; [reflexivity|]. split; [tauto|lia].
  - pose proof (colorValue_range iterations maxIterations ltac:(lia)) as Hcv.
    exists (gradient iterations maxIterations).
    split; [apply getColor_gradient; unfold Int.INT_MAX; lia|].
    assert (Hr : 1 <= r (gradient iterations maxIterations) <= 254).
    { unfold gradient. simpl.
      assert (1 <= iterations * 255 / maxIterations)
        by (apply Z.div_le_lower_bound; lia).
      rewrite Z.mod_small by lia. lia. }
    split; [|intros _; exact Hr].
    split; [|contradiction].
    intros E. rewrite E in Hr. simpl in Hr. lia.
Qed.

Lemma getColor_black_iff_sentinel_witness :
  exists p, getColor 1 100 = Ok p /\
            (p = black <-> 1 = 100) /\ (1 < 100 -> 1 <= r p <= 254).
Proof. apply (getColor_black_iff_sentinel 1 100); lia. Defined.

(** ** The renderer, for every size *)

Lemma for_loop_ok_inv {St : Type} (P : St -> Prop)
  (body : Z -> St -> outcome St) (n : nat) (i : Z) (s s' : St) :
  for_loop n i body s = Ok s' -> P s ->
  (forall j t t', P t -> body j t = Ok t' -> P t') -> P s'.
Proof.
  intros Hrun Hs Hbody. revert i s Hrun Hs.
  induction n as [|n IH]; intros i s Hrun Hs; cbn [for_loop] in Hrun.
  - injection Hrun as <-. exact Hs.
  - destruct (body i s) as [t| |] eqn:Ht; cbn [bind] in Hrun;
      try discriminate.
    apply (IH (i + 1) t Hrun). apply (Hbody i s t Hs Ht).
Qed.

(* When every pixel has the same colour the buffer is that colour
   repeated. *)
Lemma render_uniform (W H N : Z) (zoom offsetX offsetY : float) (q : RGB) :
  0 <= W -> 0 <= H -> W * H <= Int.INT_MAX ->
  Int.INT_MIN <= N <= 8421505 ->
  (forall x y, 0 <= x < W -> 0 <= y < H ->
     pixel_color (view_of zoom offsetX offsetY) W H N x y = Ok q) ->
  render W H N zoom offsetX offsetY = Ok (replicate (Z.to_nat (W * H)) q).
Proof.
  intros HW HH HWH HN Hpix.
  destruct (render_filled W H N zoom offsetX offsetY HW HH HWH HN)
    as (image & Hrun & Hfill).
  rewrite Hrun. f_equal. apply list_eq. intros i.
  destruct (Nat.lt_ge_cases i (Z.to_nat (W * H))) as [Hlt|Hge].
  - destruct (filled_lookup _ _ _ _ _ i HW HH Hfill Hlt) as (p & Hlook & Hp).
    assert (HWpos : 0 < W) by nia.
    rewrite Hpix in Hp.
    + injection Hp as <-. rewrite Hlook. symmetry.
      apply lookup_replicate_2. exact Hlt.
    + apply Z.mod_pos_bound. exact HWpos.
    + split; [apply Z.div_pos; lia|].
      apply Z.div_lt_upper_bound; lia.
  - destruct Hfill as [Hlen _].
    rewrite (lookup_ge_None_2 image i) by lia.
    symmetry. apply lookup_ge_None_2. rewrite length_replicate. exact Hge.
Qed.

(** X6: for every width and height that are not negative, whose product
    fits an [int], and every cap up to 8421505, the buffer has
    [width * height] pixels and the pixel at index [y * width + x] is the
    colour computed for the pixel [(x, y)]: the buffer is row-major for
    every size, and no pixel is left at its initial value. *)
Theorem render_row_major (width height maxIterations : Z)
  (zoom offsetX offsetY : float) :
  0 <= width -> 0 <= height -> width * height <= Int.INT_MAX ->
  Int.INT_MIN <= maxIterations <= 8421505 ->
  exists image,
    render width height maxIterations zoom offsetX offsetY = Ok image
    /\ length image = Z.to_nat (width * height)
    /\ forall x y, 0 <= x < width -> 0 <= y < height ->
         exists p,
           pixel_color (view_of zoom offsetX offsetY) width height
             maxIterations x y = Ok p
           /\ image !! Z.to_nat (y * width + x) = Some p.
Proof.
  intros HW HH HWH HN.
  destruct (render_filled width height maxIterations zoom offsetX offsetY
              HW HH HWH HN) as (image & Hrun & Hlen & Hfill).
  exists image. split; [exact Hrun|]. split; [exact Hlen|].
  intros x y Hx Hy. apply Hfill; [exact Hx|lia|nia].
Qed.

Lemma render_row_major_witness :
  exists image,
    render 3 2 5 1 0 0 = Ok image
    /\ exists p, pixel_color (view_of 1 0 0) 3 2 5 2 1 = Ok p
                 /\ image !! Z.to_nat (1 * 3 + 2) = Some p.
Proof.
  destruct (render_row_major 3 2 5 1 0 0) as (image & Hrun & _ & Hpix);
    try (unfold Int.INT_MIN, Int.INT_MAX; lia).
  exists image. split; [exact Hrun|]. apply (Hpix 2 1); lia.
Defined.

(** X7: whatever the parameters, a buffer that [render] returns has no
    channel at 255: every channel of every pixel lies in [0, 254], below
    the maximum 255 that the header of the file declares. *)
Theorem render_channels_below_255 (width height maxIterations : Z)
  (zoom offsetX offsetY : float) (image : list RGB) :
  render width height maxIterations zoom offsetX offsetY = Ok image ->
  Forall below_255 image.
Proof.
  unfold render. destruct (Int.mul width height) as [n| |]; cbn [bind];
    try discriminate.
  unfold alloc. destruct (n <? 0); cbn [bind]; try discriminate.
  intros Hrun.
  apply (for_loop_ok_inv (Forall below_255) _ _ _ _ _ Hrun).
  { apply Forall_replicate. unfold below_255. simpl. lia. }
  intros y t t' Ht Hrow. unfold render_row in Hrow.
  apply (for_loop_ok_inv (Forall below_255) _ _ _ _ _ Hrow Ht).
  intros x u u' Hu Hpixel. unfold render_pixel in Hpixel.
  destruct (pixel_color _ width height maxIterations x y) as [p| |] eqn:Hp;
    cbn [bind] in Hpixel; try discriminate.
  destruct (Int.mul y width) as [yw| |]; cbn [bind] in Hpixel;
    try discriminate.
  destruct (Int.add yw x) as [i| |]; cbn [bind] in Hpixel; try discriminate.
  unfold store in Hpixel.
  destruct ((0 <=? i) && (i <? Z.of_nat (length u))); try discriminate.
  injection Hpixel as <-. apply Forall_insert; [exact Hu|].
  apply (getColor_below_255 _ _ _ (escapeTime_range _ maxIterations) Hp).
Qed.

Lemma render_channels_below_255_witness :
  Forall below_255
    [mkRGB 127 254 253; mkRGB 0 0 0; mkRGB 127 254 253; mkRGB 0 0 0].
Proof.
  apply (render_channels_below_255 2 2 2 1 0x1p-1 0). vm_compute. reflexivity.
Defined.




(** X9: with a cap of at most 1 the buffer is black everywhere, whatever
    the view: the count is 0 for a cap that is not positive and 1, the
    cap itself, for the cap 1. *)
Theorem render_cap_at_most_one (width height maxIterations : Z)
  (zoom offsetX offsetY : float) :
  0 <= width -> 0 <= height -> width * height <= Int.INT_MAX ->
  Int.INT_MIN <= maxIterations <= 1 ->
  render width height maxIterations zoom offsetX offsetY =
    Ok (replicate (Z.to_nat (width * height)) black).
Proof.
  intros HW HH HWH HN. apply render_uniform; try assumption; [lia|].
  intros x y _ _. unfold pixel_color.
  set (c := pixel_coord _ width height x y).
  destruct (Z.le_gt_cases maxIterations 0) as [Hle|Hgt].
  - assert (escapeTime c maxIterations = 0) as ->.
    { pose proof (escapeTime_range c maxIterations). lia. }
    apply getColor_zero_count. unfold Int.INT_MAX. lia.
  - assert (maxIterations = 1) as -> by lia.
    assert (escapeTime c 1 = 1) as -> by reflexivity.
    reflexivity.
Qed.

Lemma render_cap_at_most_one_witness :
  render 3 2 (-7) 1 0 0 = Ok (replicate (Z.to_nat (3 * 2)) black).
Proof.
  apply (render_cap_at_most_one 3 2 (-7) 1 0 0); try lia;
    unfold Int.INT_MIN, Int.INT_MAX; lia.
Defined.

(** ** The text of the PPM file *)

Lemma append_cons (a : ascii) (s t : string) :
  String a s +:+ t = String a (s +:+ t).
Proof. reflexivity. Qed.

Lemma count_char_app (c : ascii) (s t : string) :
  count_char c (s +:+ t) = (count_char c s + count_char c t)%nat.
Proof.
  induction s as [|a s IH]; [reflexivity|].
  rewrite append_cons. simpl. rewrite IH. lia.
Qed.

Lemma append_assoc (s t u : string) : (s +:+ t) +:+ u = s +:+ (t +:+ u).
Proof.
  induction s as [|a s IH]; [reflexivity|].
  rewrite !append_cons, IH. reflexivity.
Qed.

(* The separators of the file: the space and the newline. *)
Lemma pretty_N_char_not_separator (c : ascii) (d : N) :
  c = " "%char \/ c = "010"%char -> Ascii.eqb (pretty_N_char d) c = false.
Proof.
  intros [-> | ->]; unfold pretty_N_char; repeat case_match; reflexivity.
Qed.

Lemma pretty_N_go_count (c : ascii) (x : N) (s : string) :
  c = " "%char \/ c = "010"%char ->
  count_char c (pretty_N_go x s) = count_char c s.
Proof.
  intros Hc. revert s. induction (N.lt_wf_0 x) as [x _ IH]; intros s.
  destruct (N.eq_dec x 0%N) as [->|Hx]; [reflexivity|].
  rewrite pretty_N_go_step by lia.
  rewrite IH by (apply N.div_lt; lia).
  simpl. rewrite (pretty_N_char_not_separator c _ Hc). reflexivity.
Qed.

Lemma print_int_no_separator (c : ascii) (n : Z) :
  c = " "%char \/ c = "010"%char -> count_char c (print_int n) = O.
Proof.
  intros Hc.
  assert (HN : forall x : N, count_char c (pretty x) = O).
  { intros x. unfold pretty, pretty_N. case_decide.
    - destruct Hc as [-> | ->]; reflexivity.
    - rewrite pretty_N_go_count by exact Hc. reflexivity. }
  unfold print_int, pretty, pretty_Z.
  destruct n as [|p|p]; [destruct Hc as [-> | ->]; reflexivity|apply HN|].
  rewrite count_char_app. change (pretty p) with (pretty (Npos p)).
  rewrite HN. destruct Hc as [-> | ->]; reflexivity.
Qed.

(* Two texts cut at their first separator agree part by part. *)
Lemma append_separator_inj (c : ascii) (u v s t : string) :
  count_char c u = O -> count_char c v = O ->
  u +:+ String c s = v +:+ String c t -> u = v /\ s = t.
Proof.
  revert v. induction u as [|a u IH]; intros [|a' v] Hu Hv E;
    rewrite ?append_cons in E;
    change (EmptyString +:+ String c s) with (String c s) in *;
    change (EmptyString +:+ String c t) with (String c t) in *;
    simpl in Hu, Hv.
  - injection E as ->. split; reflexivity.
  - injection E as <- _. rewrite Ascii.eqb_refl in Hv. discriminate.
  - injection E as -> _. rewrite Ascii.eqb_refl in Hu. discriminate.
  - injection E as -> E.
    destruct (Ascii.eqb a' c); [discriminate|].
    destruct (IH v Hu Hv E) as [-> ->]. split; reflexivity.
Qed.

Lemma ppm_pixel_inj (p q : RGB) (s t : string) :
  ppm_pixel p +:+ s = ppm_pixel q +:+ t -> p = q /\ s = t.
Proof.
  unfold ppm_pixel, newline. rewrite !append_assoc. intros E.
  assert (Hsp : " "%char = " "%char \/ " "%char = "010"%char)
    by (left; reflexivity).
  assert (Hnl : "010"%char = " "%char \/ "010"%char = "010"%char)
    by (right; reflexivity).
  destruct (append_separator_inj " " _ _ _ _
              (print_int_no_separator _ (r p) Hsp)
              (print_int_no_separator _ (r q) Hsp) E) as [Hr E1].
  destruct (append_separator_inj " " _ _ _ _
              (print_int_no_separator _ (g p) Hsp)
              (print_int_no_separator _ (g q) Hsp) E1) as [Hg E2].
  destruct (append_separator_inj "010" _ _ _ _
              (print_int_no_separator _ (b p) Hnl)
              (print_int_no_separator _ (b q) Hnl) E2) as [Hb E3].
  apply (inj pretty) in Hr, Hg, Hb.
  destruct p, q; simpl in *; subst. split; reflexivity.
Qed.

Lemma ppm_body_inj (image image' : list RGB) :
  ppm_body image = ppm_body image' -> image = image'.
Proof.
  revert image'. induction image as [|p image IH]; intros [|q image'] E.
  - reflexivity.
  - apply (f_equal (count_char "010")) in E. simpl in E.
    unfold ppm_pixel, newline in E. rewrite !count_char_app in E.
    simpl in E. lia.
  - apply (f_equal (count_char "010")) in E. simpl in E.
    unfold ppm_pixel, newline in E. rewrite !count_char_app in E.
    simpl in E. lia.
  - simpl in E. destruct (ppm_pixel_inj p q _ _ E) as [-> E'].
    f_equal. apply IH. exact E'.
Qed.

Lemma ppm_body_lines (image : list RGB) :
  count_char "010" (ppm_body image) = length image.
Proof.
  assert (Hnl : "010"%char = " "%char \/ "010"%char = "010"%char)
    by (right; reflexivity).
  induction image as [|p image IH]; [reflexivity|].
  simpl. unfold ppm_pixel, newline. rewrite !count_char_app, IH.
  rewrite !print_int_no_separator by exact Hnl. reflexivity.
Qed.

Lemma ppm_count_newline (width height : Z) (image : list RGB) :
  count_char "010" (ppm width height image) = (3 + length image)%nat.
Proof.
  assert (Hnl : "010"%char = " "%char \/ "010"%char = "010"%char)
    by (right; reflexivity).
  unfold ppm, ppm_header, newline. rewrite !count_char_app, ppm_body_lines.
  rewrite !print_int_no_separator by exact Hnl. reflexivity.
Qed.

Lemma ppm_body_spaces (image : list RGB) :
  count_char " " (ppm_body image) = (2 * length image)%nat.
Proof.
  assert (Hsp : " "%char = " "%char \/ " "%char = "010"%char)
    by (left; reflexivity).
  induction image as [|p image IH]; [reflexivity|].
  simpl. unfold ppm_pixel, newline. rewrite !count_char_app, IH.
  rewrite !print_int_no_separator by exact Hsp. simpl. lia.
Qed.

(** X10: the text of the file has one line per pixel after the three
    lines of the header, three numbers on every pixel line and two in the
    size line: it holds [3 + n] newlines and [1 + 2 n] spaces for a buffer
    of [n] pixels, whatever the numbers printed. *)
Theorem ppm_line_count (width height : Z) (image : list RGB) :
  count_char "010" (ppm width height image) = (3 + length image)%nat /\
  count_char " " (ppm width height image) = (1 + 2 * length image)%nat.
Proof.
  split; [apply ppm_count_newline|].
  assert (Hsp : " "%char = " "%char \/ " "%char = "010"%char)
    by (left; reflexivity).
  unfold ppm, ppm_header, newline. rewrite !count_char_app, ppm_body_spaces.
  rewrite !print_int_no_separator by exact Hsp. reflexivity.
Qed.

(** X11: the file determines what was written: two files with the same
    text have the same width, the same height and the same pixels, channel
    by channel.  Nothing is lost or merged by the decimal printing and the
    separators. *)
Theorem ppm_inj (width height width' height' : Z) (image image' : list RGB) :
  ppm width height image = ppm width' height' image' ->
  width = width' /\ height = height' /\ image = image'.
Proof.
  unfold ppm, ppm_header, newline. rewrite !append_assoc. intros E.
  assert (Hsp : " "%char = " "%char \/ " "%char = "010"%char)
    by (left; reflexivity).
  assert (Hnl : "010"%char = " "%char \/ "010"%char = "010"%char)
    by (right; reflexivity).
  apply (inj (String.append "P3")) in E.
  apply (inj (String.append (String "010" EmptyString))) in E.
  destruct (append_separator_inj " " _ _ _ _
              (print_int_no_separator _ width Hsp)
              (print_int_no_separator _ width' Hsp) E) as [Hw E1].
  destruct (append_separator_inj "010" _ _ _ _
              (print_int_no_separator _ height Hnl)
              (print_int_no_separator _ height' Hnl) E1) as [Hh E2].
  apply (inj pretty) in Hw, Hh.
  apply (inj (String.append "255")) in E2.
  apply (inj (String.append (String "010" EmptyString))) in E2.
  apply ppm_body_inj in E2. auto.
Qed.

Lemma ppm_inj_witness :
  2 = 2 /\ 1 = 1 /\ [black; mkRGB 25 50 100] = [black; mkRGB 25 50 100].
Proof.
  apply (ppm_inj 2 1 2 1 [black; mkRGB 25 50 100] [black; mkRGB 25 50 100]).
  reflexivity.
Defined.

(** ** [generateMandelbrot] and [main] *)



(** X13: when the file cannot be opened and the sizes are not negative
    (with a product that fits an [int] and a cap up to 8421505), the
    buffer is rendered all the same and [generateMandelbrot] returns
    normally: no file is changed, so a file of that name keeps what it
    held, nothing goes to [std::cout], and the one line
    "Error: Could not open file <filename> for writing." is added to
    [std::cerr]. *)
Theorem generateMandelbrot_unwritable (writable : string -> bool)
  (width height maxIterations : Z) (zoom offsetX offsetY : float)
  (filename : string) (w : world) :
  0 <= width -> 0 <= height -> width * height <= Int.INT_MAX ->
  Int.INT_MIN <= maxIterations <= 8421505 ->
  writable filename = false ->
  exists image w',
    render width height maxIterations zoom offsetX offsetY = Ok image /\
    length image = Z.to_nat (width * height) /\
    generateMandelbrot writable width height maxIterations zoom offsetX
      offsetY filename w = Ok w' /\
    files w' = files w /\
    files w' !! filename = files w !! filename /\
    cout w' = cout w /\
    cerr w' = cerr w +:+ "Error: Could not open file " +:+ filename
              +:+ " for writing." +:+ newline.
Proof.
  intros HW HH HWH HN Hopen.
  destruct (render_filled width height maxIterations zoom offsetX offsetY
              HW HH HWH HN) as (image & Hrun & Hlen & _).
  exists image. eexists. split; [exact Hrun|]. split; [exact Hlen|].
  split.
  { unfold generateMandelbrot. rewrite Hrun. cbn [bind]. rewrite Hopen.
    reflexivity. }
  cbn [files cout cerr]. repeat split.
Qed.

Lemma generateMandelbrot_unwritable_witness :
  exists image w',
    render 2 2 1 1 0 0 = Ok image /\
    generateMandelbrot (fun _ => false) 2 2 1 1 0 0 "out.ppm"
      (mkWorld (<["out.ppm" := "old"]> ∅) EmptyString EmptyString) = Ok w' /\
    files w' !! "out.ppm" = Some "old" /\
    cerr w' = EmptyString +:+ "Error: Could not open file " +:+ "out.ppm"
              +:+ " for writing." +:+ newline.
Proof.
  destruct (generateMandelbrot_unwritable (fun _ => false) 2 2 1 1 0 0
              "out.ppm"
              (mkWorld (<["out.ppm" := "old"]> ∅) EmptyString EmptyString))
    as (image & w' & H1 & _ & H2 & _ & H3 & _ & H4);
    try reflexivity; try (unfold Int.INT_MIN, Int.INT_MAX; lia).
  exists image, w'. split; [exact H1|]. split; [exact H2|].
  split; [|exact H4].
  rewrite H3. cbn [files]. apply lookup_insert_eq.
Defined.

(** X14: with a negative width and a negative height the product is
    positive: the vector is built, no loop runs, and the buffer is
    [width * height] black pixels, for every cap and every view; written
    to a file, the size line of the header carries the two negative
    numbers. *)
Theorem render_negative_sizes (width height maxIterations : Z)
  (zoom offsetX offsetY : float) :
  width < 0 -> height < 0 -> width * height <= Int.INT_MAX ->
  render width height maxIterations zoom offsetX offsetY =
    Ok (replicate (Z.to_nat (width * height)) black) /\
  (0 < Z.to_nat (width * height))%nat /\
  forall image,
    ppm width height image =
      "P3" +:+ newline +:+ "-" +:+ pretty (Z.to_pos (- width)) +:+ " "
      +:+ "-" +:+ pretty (Z.to_pos (- height)) +:+ newline +:+ "255"
      +:+ newline +:+ ppm_body image.
Proof.
  intros HW HH HWH. split; [|split].
  - rewrite render_unfold by (unfold Int.INT_MIN; nia).
    replace (Z.to_nat height) with O by lia. reflexivity.
  - nia.
  - intros image. unfold ppm, ppm_header, print_int.
    destruct width as [|pw|pw]; try lia.
    destruct height as [|ph|ph]; try lia.
    rewrite !append_assoc. reflexivity.
Qed.

Lemma render_negative_sizes_witness :
  render (-2) (-3) 100 1 0 0 = Ok (replicate (Z.to_nat (-2 * -3)) black).
Proof.
  destruct (render_negative_sizes (-2) (-3) 100 1 0 0) as [H _];
    [lia|lia|unfold Int.INT_MAX; lia|exact H].
Defined.

(* The two halves of [generateMandelbrot] once the buffer is there. *)
Lemma generateMandelbrot_rendered (writable : string -> bool)
  (width height maxIterations : Z) (zoom offsetX offsetY : float)
  (filename : string) (w : world) (image : list RGB) :
  render width height maxIterations zoom offsetX offsetY = Ok image ->
  generateMandelbrot writable width height maxIterations zoom offsetX offsetY
    filename w =
  Ok (if writable filename
      then mkWorld (<[filename := ppm width height image]> (files w))
             (cout w +:+ "Mandelbrot image saved to " +:+ filename
              +:+ newline) (cerr w)
      else mkWorld (files w) (cout w)
             (cerr w +:+ "Error: Could not open file " +:+ filename
              +:+ " for writing." +:+ newline)).
Proof.
  intros H. unfold generateMandelbrot. rewrite H. cbn [bind].
  destruct (writable filename); reflexivity.
Qed.

(* Two calls in a row, on two files, as [main] makes them; stated for
   every choice of the parameters. *)
Lemma generateMandelbrot_twice (writable : string -> bool)
  (W1 H1 N1 : Z) (z1 ox1 oy1 : float) (fn1 : string)
  (W2 H2 N2 : Z) (z2 ox2 oy2 : float) (fn2 : string)
  (w : world) (image1 image2 : list RGB) :
  fn1 <> fn2 ->
  render W1 H1 N1 z1 ox1 oy1 = Ok image1 ->
  render W2 H2 N2 z2 ox2 oy2 = Ok image2 ->
  exists w',
    (do w1 <- generateMandelbrot writable W1 H1 N1 z1 ox1 oy1 fn1 w ;
     let w2 := mkWorld (files w1)
                 (cout w1 +:+ newline +:+ "Generating a zoomed-in view..."
                  +:+ newline)
                 (cerr w1) in
     do w3 <- generateMandelbrot writable W2 H2 N2 z2 ox2 oy2 fn2 w2 ;
     Ok (w3, 0)) = Ok (w', 0) /\
    (writable fn1 = true -> files w' !! fn1 = Some (ppm W1 H1 image1)) /\
    (writable fn2 = true -> files w' !! fn2 = Some (ppm W2 H2 image2)) /\
    (forall other, other <> fn1 -> other <> fn2 ->
                   files w' !! other = files w !! other).
Proof.
  intros Hne Hrun1 Hrun2.
  rewrite (generateMandelbrot_rendered writable W1 H1 N1 z1 ox1 oy1 fn1 w
             image1 Hrun1).
  cbn [bind]. cbv zeta.
  rewrite (generateMandelbrot_rendered writable W2 H2 N2 z2 ox2 oy2 fn2 _
             image2 Hrun2).
  cbn [bind]. eexists. split; [reflexivity|].
  destruct (writable fn1), (writable fn2); cbn [files];
    (split; [|split]); intros; try discriminate;
    rewrite ?lookup_insert_eq, ?lookup_insert_ne by congruence;
    rewrite ?lookup_insert_eq; reflexivity.
Qed.

Lemma main_unfold (writable : string -> bool) (w : world) :
  main writable w =
  (do w1 <- generateMandelbrot writable 800 600 100 1 0 0 "mandelbrot.ppm" w ;
   let w2 := mkWorld (files w1)
               (cout w1 +:+ newline +:+ "Generating a zoomed-in view..."
                +:+ newline)
               (cerr w1) in
   do w3 <- generateMandelbrot writable 800 600 500
              main_zoom main_offsetX main_offsetY "mandelbrot_zoomed.ppm" w2 ;
   Ok (w3, 0)).
Proof. reflexivity. Qed.

(** X15: [main] runs into no undefined behaviour and no exception and
    returns 0, whether or not the two files can be opened.  Both buffers
    have 480000 pixels; a file that can be opened holds its 800 by 600
    image afterwards, and no file other than "mandelbrot.ppm" and
    "mandelbrot_zoomed.ppm" is changed. *)
Theorem main_runs (writable : string -> bool) (w : world) :
  exists image1 image2 w',
    render 800 600 100 1 0 0 = Ok image1 /\
    render 800 600 500 main_zoom main_offsetX main_offsetY = Ok image2 /\
    Z.of_nat (length image1) = 480000 /\
    Z.of_nat (length image2) = 480000 /\
    main writable w = Ok (w', 0) /\
    (writable "mandelbrot.ppm" = true ->
     files w' !! "mandelbrot.ppm" = Some (ppm 800 600 image1)) /\
    (writable "mandelbrot_zoomed.ppm" = true ->
     files w' !! "mandelbrot_zoomed.ppm" = Some (ppm 800 600 image2)) /\
    (forall other, other <> "mandelbrot.ppm" ->
                   other <> "mandelbrot_zoomed.ppm" ->
                   files w' !! other = files w !! other).
Proof.
  assert (HM : 800 * 600 <= Int.INT_MAX) by (unfold Int.INT_MAX; lia).
  assert (Hm : Int.INT_MIN <= 100 <= 8421505) by (unfold Int.INT_MIN; lia).
  assert (Hm' : Int.INT_MIN <= 500 <= 8421505) by (unfold Int.INT_MIN; lia).
  destruct (render_filled 800 600 100 1 0 0 ltac:(lia) ltac:(lia) HM Hm)
    as (image1 & Hrun1 & Hlen1 & _).
  destruct (render_filled 800 600 500 main_zoom main_offsetX main_offsetY
              ltac:(lia) ltac:(lia) HM Hm') as (image2 & Hrun2 & Hlen2 & _).
  destruct (generateMandelbrot_twice writable
              800 600 100 1 0 0 "mandelbrot.ppm"
              800 600 500 main_zoom main_offsetX main_offsetY
              "mandelbrot_zoomed.ppm" w image1 image2
              ltac:(discriminate) Hrun1 Hrun2)
    as (w' & Hmain & Hfile1 & Hfile2 & Hframe).
  exists image1, image2, w'.
  split; [exact Hrun1|]. split; [exact Hrun2|].
  split; [rewrite Hlen1; lia|]. split; [rewrite Hlen2; lia|].
  split; [rewrite main_unfold; exact Hmain|].
  split; [exact Hfile1|]. split; [exact Hfile2|exact Hframe].
Qed.

Lemma main_runs_witness :
  exists image1 w',
    render 800 600 100 1 0 0 = Ok image1 /\
    main (fun _ => true) (mkWorld ∅ EmptyString EmptyString) = Ok (w', 0) /\
    files w' !! "mandelbrot.ppm" = Some (ppm 800 600 image1).
Proof.
  destruct (main_runs (fun _ => true) (mkWorld ∅ EmptyString EmptyString))
    as (image1 & image2 & w' & H1 & _ & _ & _ & Hmain & Hfile & _).
  exists image1, w'. split; [exact H1|]. split; [exact Hmain|].
  apply Hfile. reflexivity.
Defined.

(** ** The operands of the loop body *)

(** X16: whenever the loop body runs, that is after [norm(z) < 4.0] held,
    the two coordinates of [z] are finite and the real part of [z * z] is
    not NaN: the product is computed on finite numbers and by the plain
    formula. *)
Theorem loop_body_operands_finite (z : complex) :
  bounded z = true ->
  is_finite (re z) = true /\ is_finite (im z) = true /\
  is_nan (re (cmul z z)) = false.
Proof.
  intros H. destruct (bounded_finite z H) as [Hx Hy].
  split; [exact Hx|]. split; [exact Hy|].
  pose proof (cmul_square_re_not_nan z H) as Hn.
  unfold is_nan. rewrite FloatAxioms.eqb_spec. unfold SFeqb.
  destruct (Prim2SF (re (cmul z z))) as [s|[]| |[] m e]; simpl;
    try reflexivity; try contradiction;
    rewrite Z.compare_refl, Pos.compare_cont_refl; reflexivity.
Qed.

Lemma loop_body_operands_finite_witness :
  is_finite (re (mkComplex 1 0.5)) = true /\
  is_finite (im (mkComplex 1 0.5)) = true /\
  is_nan (re (cmul (mkComplex 1 0.5) (mkComplex 1 0.5))) = false.
Proof.
  apply (loop_body_operands_finite (mkComplex 1 0.5)). reflexivity.
Defined.

(** ** More on the count and on the red channel *)

(** X17: for a cap of at least 2 the count is 1 exactly when [c] itself
    fails [norm(c) < 4.0]: a point that passes the test gets a count of
    at least 2. *)
Theorem escapeTime_one_iff (c : complex) (maxIterations : Z) :
  2 <= maxIterations ->
  (escapeTime c maxIterations = 1 <-> bounded c = false) /\
  (bounded c = true -> 2 <= escapeTime c maxIterations).
Proof.
  intros HN.
  assert (Hstep : bounded (step c czero) = bounded c).
  { unfold bounded. rewrite norm_step_zero. reflexivity. }
  assert (Hcount : bounded c = true -> 2 <= escapeTime c maxIterations).
  { intros Hc. rewrite escapeTime_count.
    replace (Z.to_nat maxIterations)
      with (S (S (Z.to_nat (maxIterations - 2)))) by lia.
    cbn [escape_count]. change (bounded czero) with true. cbv iota.
    rewrite Hstep, Hc. lia. }
  split; [|exact Hcount]. split.
  - intros E. destruct (bounded c) eqn:Hc; [|reflexivity].
    specialize (Hcount eq_refl). lia.
  - intros Hc. unfold escapeTime.
    rewrite escape_run_first_step; [reflexivity|lia|exact Hc].
Qed.

Lemma escapeTime_one_iff_witness :
  (escapeTime (mkComplex 1 1) 50 = 1 <-> bounded (mkComplex 1 1) = false) /\
  (bounded (mkComplex 1 1) = true -> 2 <= escapeTime (mkComplex 1 1) 50).
Proof. apply (escapeTime_one_iff (mkComplex 1 1) 50). lia. Defined.

(** X18: below the cap the red channel is the colour value itself,
    [iterations * 255 / maxIterations], and does not decrease when the
    count grows: of two counts below the cap, the later escape is at least
    as red. *)
Theorem getColor_red_monotone (i j maxIterations : Z) :
  0 <= i <= j -> j < maxIterations -> j * 255 <= Int.INT_MAX ->
  exists p q,
    getColor i maxIterations = Ok p /\ getColor j maxIterations = Ok q /\
    r p = i * 255 / maxIterations /\ r q = j * 255 / maxIterations /\
    r p <= r q.
Proof.
  intros Hij Hj Hov.
  pose proof (colorValue_range i maxIterations ltac:(lia)) as Hi'.
  pose proof (colorValue_range j maxIterations ltac:(lia)) as Hj'.
  exists (gradient i maxIterations), (gradient j maxIterations).
  split; [apply getColor_gradient; unfold Int.INT_MAX in *; lia|].
  split; [apply getColor_gradient; unfold Int.INT_MAX in *; lia|].
  unfold gradient. cbn [r].
  rewrite !Z.mod_small by lia.
  split; [reflexivity|]. split; [reflexivity|].
  apply Z.div_le_mono; lia.
Qed.

Lemma getColor_red_monotone_witness :
  exists p q,
    getColor 10 100 = Ok p /\ getColor 60 100 = Ok q /\
    r p = 10 * 255 / 100 /\ r q = 60 * 255 / 100 /\ r p <= r q.
Proof.
  apply (getColor_red_monotone 10 60 100); try lia.
  unfold Int.INT_MAX. lia.
Defined.
